(** * kubernetes-namespaces-operator: the namespace controller

    A shallow embedding of [pkg/controller/controller.go].  The controller
    watches Namespace objects and, on every add event, submits a LimitRange
    and a ResourceQuota for the namespace unless the name is classified as
    administrative by [regexp.MatchString("kube-.*", name)].

    Layout:
    - [Regexp]     : the fragment of Go's [regexp] package the controller uses;
    - [K8s]        : the API objects the handler reads and builds, and the
                     client calls it makes;
    - [Effects]    : API calls, log lines and panics as a state monad over the
                     cluster and a trace;
    - [GoThread]   : a goroutine stepping through deferred calls, WaitGroup
                     calls, [go] statements and a channel receive;
    - [Controller] : the handler, the informer, the constructor and [Run];
    - [Fake]       : cluster clients to run the handler against;
    - then the properties. *)

From Stdlib Require Import ZArith Lia Bool List Ascii String.
From stdpp Require Import base option list strings gmap.

Local Open Scope string_scope.
Local Open Scope list_scope.

(** ** Go strings

    A Go string is a sequence of bytes; [string] (a list of [ascii]) is that
    sequence.  [bytes] exposes it as a list for the matcher. *)

Definition bytes (s : string) : list ascii := list_ascii_of_string s.

(** [strings.Contains]-style predicate, as a proposition and as a test. *)
Definition occurs_in (sub s : list ascii) : Prop :=
  exists pre post, s = pre ++ sub ++ post.

Fixpoint starts_with (p s : list ascii) : bool :=
  match p, s with
  | [], _ => true
  | a :: p', b :: s' => if Ascii.eqb a b then starts_with p' s' else false
  | _ :: _, [] => false
  end.

Fixpoint find_sub (sub s : list ascii) : bool :=
  starts_with sub s ||
  match s with
  | [] => false
  | _ :: s' => find_sub sub s'
  end.

Definition Contains (s sub : string) : bool := find_sub (bytes sub) (bytes s).

Definition HasPrefix (s p : string) : bool := starts_with (bytes p) (bytes s).

(** ** The regular expressions of Go's [regexp] used by the controller *)

Module Regexp.

(** Syntax.  [AnyNotNL] is [.] (any character but a line feed, Go's default
    without the [s] flag); [AnyByte] only serves the unanchored search. *)
Inductive regex : Type :=
| Void
| Eps
| Lit (a : ascii)
| AnyNotNL
| AnyByte
| Cat (r1 r2 : regex)
| Alt (r1 r2 : regex)
| Star (r : regex).

Definition newline : ascii := "010"%char.

(** Denotation: the words of a regular expression. *)
Inductive lang : regex -> list ascii -> Prop :=
| lang_eps : lang Eps []
| lang_lit a : lang (Lit a) [a]
| lang_dot a : a <> newline -> lang AnyNotNL [a]
| lang_any a : lang AnyByte [a]
| lang_cat r1 r2 u v : lang r1 u -> lang r2 v -> lang (Cat r1 r2) (u ++ v)
| lang_alt_l r1 r2 u : lang r1 u -> lang (Alt r1 r2) u
| lang_alt_r r1 r2 u : lang r2 u -> lang (Alt r1 r2) u
| lang_star_nil r : lang (Star r) []
| lang_star_app r u v : lang r u -> lang (Star r) v -> lang (Star r) (u ++ v).

(** The matcher: Brzozowski derivatives. *)
Fixpoint nullable (r : regex) : bool :=
  match r with
  | Void | Lit _ | AnyNotNL | AnyByte => false
  | Eps | Star _ => true
  | Cat r1 r2 => nullable r1 && nullable r2
  | Alt r1 r2 => nullable r1 || nullable r2
  end.

Fixpoint deriv (a : ascii) (r : regex) : regex :=
  match r with
  | Void | Eps => Void
  | Lit b => if Ascii.eqb a b then Eps else Void
  | AnyNotNL => if Ascii.eqb a newline then Void else Eps
  | AnyByte => Eps
  | Cat r1 r2 =>
      if nullable r1
      then Alt (Cat (deriv a r1) r2) (deriv a r2)
      else Cat (deriv a r1) r2
  | Alt r1 r2 => Alt (deriv a r1) (deriv a r2)
  | Star r1 => Cat (deriv a r1) (Star r1)
  end.

Fixpoint full_match (r : regex) (w : list ascii) : bool :=
  match w with
  | [] => nullable r
  | a :: w' => full_match (deriv a r) w'
  end.

(** [regexp.Compile] on the fragment: literal characters, [.], and the
    postfix [*].  Any other metacharacter is outside the fragment and
    reported as an error, as is a [*] with nothing to repeat. *)
Definition is_meta (a : ascii) : bool :=
  existsb (Ascii.eqb a) (bytes "\+?()[]{}|^$").

Fixpoint parse_atoms (p : list ascii) (acc : list regex) : option (list regex) :=
  match p with
  | [] => Some (rev acc)
  | a :: p' =>
      if Ascii.eqb a "*"%char then
        match acc with
        | [] => None
        | Star _ :: _ => None
        | r :: acc' => parse_atoms p' (Star r :: acc')
        end
      else if Ascii.eqb a "."%char then parse_atoms p' (AnyNotNL :: acc)
      else if is_meta a then None
      else parse_atoms p' (Lit a :: acc)
  end.

Definition Compile (pattern : string) : option regex :=
  match parse_atoms (bytes pattern) [] with
  | Some atoms => Some (fold_right Cat Eps atoms)
  | None => None
  end.

(** What [Compile "kube-.*"] yields. *)
Definition kube_re : regex :=
  Cat (Lit "k") (Cat (Lit "u") (Cat (Lit "b") (Cat (Lit "e") (Cat (Lit "-")
    (Cat (Star AnyNotNL) Eps))))).

(** [re.MatchString(s)]: whether [s] contains any match of [re]. *)
Definition search (r : regex) (w : list ascii) : bool :=
  full_match (Cat (Star AnyByte) (Cat r (Star AnyByte))) w.

(** [regexp.MatchString(pattern, s)] returns [(matched, err)]; [err] is the
    compilation error, in which case [matched] is [false]. *)
Definition MatchString (pattern s : string) : bool * option string :=
  match Compile pattern with
  | Some r => (search r (bytes s), None)
  | None => (false, Some ("error parsing regexp: " +:+ pattern))
  end.

End Regexp.

(** ** The Kubernetes API objects the handler reads and builds *)

Module K8s.

Record TypeMeta : Type := mkTypeMeta {
  Kind : string;
  APIVersion : string
}.

Record ObjectMeta : Type := mkObjectMeta {
  Name : string;
  Namespace : string;
  Labels : gmap string string;
  Annotations : gmap string string
}.

(** [resource.Quantity]: an [int64] amount, its decimal scale, and a
    display format. *)
Inductive Format : Type := DecimalExponent | BinarySI | DecimalSI.

Record Quantity : Type := mkQuantity {
  amount : Z;
  scale : Z;
  QFormat : Format
}.

Definition NewQuantity (value : Z) (format : Format) : Quantity :=
  {| amount := value; scale := 0; QFormat := format |}.

(** [q.Value()] for a quantity whose scale is not negative and whose value
    fits an [int64]: the amount times ten to the scale. *)
Definition Value (q : Quantity) : Z := amount q * 10 ^ scale q.

(** [v1.ResourceList] is [map[ResourceName]resource.Quantity]. *)
Abbreviation ResourceList := (gmap string Quantity).

Inductive LimitType : Type :=
| LimitTypePod
| LimitTypeContainer
| LimitTypePersistentVolumeClaim.

Record LimitRangeItem : Type := mkLimitRangeItem {
  Type_ : LimitType;
  Max : ResourceList;
  Min : ResourceList;
  Default : ResourceList;
  DefaultRequest : ResourceList;
  MaxLimitRequestRatio : ResourceList
}.

Record LimitRangeSpec : Type := mkLimitRangeSpec {
  Limits : list LimitRangeItem
}.

Record LimitRange : Type := mkLimitRange {
  lr_TypeMeta : TypeMeta;
  lr_ObjectMeta : ObjectMeta;
  lr_Spec : LimitRangeSpec
}.

Record ResourceQuotaSpec : Type := mkResourceQuotaSpec {
  Hard : ResourceList;
  Scopes : list string
}.

Record ResourceQuota : Type := mkResourceQuota {
  rq_TypeMeta : TypeMeta;
  rq_ObjectMeta : ObjectMeta;
  rq_Spec : ResourceQuotaSpec
}.

Record NamespaceSpec : Type := mkNamespaceSpec {
  Finalizers : list string
}.

Record NamespaceStatus : Type := mkNamespaceStatus {
  Phase : string
}.

Record Namespace_ : Type := mkNamespace {
  ns_TypeMeta : TypeMeta;
  ns_ObjectMeta : ObjectMeta;
  ns_Spec : NamespaceSpec;
  ns_Status : NamespaceStatus
}.

(** A value of type [interface{}] as the informer hands it to a handler:
    the nil interface, a [*v1.Namespace] (the pointer itself may be nil),
    or a value of some other dynamic type. *)
Inductive iface : Type :=
| nil_iface
| ptr_Namespace (p : option Namespace_)
| other_value (dynamic_type : string).

(** A Go [error] is observed through [Error()]; [None] is [nil]. *)
Abbreviation error := (option string).

Record ListOptions : Type := mkListOptions {
  LabelSelector : string;
  FieldSelector : string;
  ResourceVersion : string
}.

(** [watch.Event]: what a watch streams. *)
Inductive EventType : Type := Added | Modified | Deleted.

(** The part of [*kubernetes.Clientset] the controller calls.  [C] is the
    state of the cluster behind the client; each call may read and change
    it, and returns the created object and an error as the Go method does. *)
Record Clientset (C : Type) : Type := mkClientset {
  Namespaces_List : ListOptions -> C -> list Namespace_ * error;
  Namespaces_Watch : ListOptions -> C -> list (EventType * Namespace_) * error;
  LimitRanges_Create :
    string -> LimitRange -> C -> (option LimitRange * error) * C;
  ResourceQuotas_Create :
    string -> ResourceQuota -> C -> (option ResourceQuota * error) * C
}.
Arguments Namespaces_List {C}.
Arguments Namespaces_Watch {C}.
Arguments LimitRanges_Create {C}.
Arguments ResourceQuotas_Create {C}.

End K8s.

(** ** The handler's effects: API calls, log lines, panics *)

Module Effects.
Import K8s.

(** What the process does, in order. *)
Inductive event : Type :=
| CreateLimitRange (namespace : string) (body : LimitRange)
| CreateResourceQuota (namespace : string) (body : ResourceQuota)
| LogLine (line : string).

Record World (C : Type) : Type := mkWorld {
  cluster : C;
  trace : list event
}.
Arguments mkWorld {C}.
Arguments cluster {C}.
Arguments trace {C}.

Inductive result (A : Type) : Type :=
| Ret (a : A)
| Panic (msg : string).
Arguments Ret {A}.
Arguments Panic {A}.

Definition is_Panic {A} (r : result A) : bool :=
  match r with
  | Panic _ => true
  | Ret _ => false
  end.

Definition M (C A : Type) : Type := World C -> result A * World C.

Definition ret {C A} (a : A) : M C A := fun w => (Ret a, w).

Definition bind {C A B} (m : M C A) (k : A -> M C B) : M C B :=
  fun w =>
    match m w with
    | (Ret a, w') => k a w'
    | (Panic msg, w') => (Panic msg, w')
    end.

Definition panic {C A} (msg : string) : M C A := fun w => (Panic msg, w).

Definition emit {C} (e : event) : M C unit :=
  fun w => (Ret tt, mkWorld (cluster w) (trace w ++ [e])).

(** [log.Println(s)] *)
Definition log_Println {C} (s : string) : M C unit := emit (LogLine s).

(** [c.kclient.CoreV1().LimitRanges(ns).Create(body)] *)
Definition call_LimitRanges_Create {C} (kclient : Clientset C)
    (ns : string) (body : LimitRange) : M C (option LimitRange * error) :=
  fun w =>
    let '(r, cl) := LimitRanges_Create kclient ns body (cluster w) in
    (Ret r, mkWorld cl (trace w ++ [CreateLimitRange ns body])).

(** [c.kclient.CoreV1().ResourceQuotas(ns).Create(body)] *)
Definition call_ResourceQuotas_Create {C} (kclient : Clientset C)
    (ns : string) (body : ResourceQuota) : M C (option ResourceQuota * error) :=
  fun w =>
    let '(r, cl) := ResourceQuotas_Create kclient ns body (cluster w) in
    (Ret r, mkWorld cl (trace w ++ [CreateResourceQuota ns body])).

(** Projections of a trace: the outbound API calls, and the log lines. *)
Definition is_call (e : event) : bool :=
  match e with
  | CreateLimitRange _ _ | CreateResourceQuota _ _ => true
  | LogLine _ => false
  end.

Definition calls (t : list event) : list event := List.filter is_call t.

Definition log_of (e : event) : option string :=
  match e with
  | LogLine l => Some l
  | _ => None
  end.

Definition logs (t : list event) : list string := omap log_of t.

End Effects.

(** ** One goroutine and what it shares with the rest of the process

    [Run] is four statements: a deferred call, a call, a [go] statement and a
    channel receive.  [GoThread] executes such a body against the state the
    goroutine shares with others: the WaitGroup counter, the goroutines it
    has started, and whether the stop channel can be received from. *)

Module GoThread.

Inductive call : Type :=
| wg_Add (delta : Z)
| wg_Done.

Inductive stmt (G : Type) : Type :=
| Defer (c : call)
| Call (c : call)
| Go (g : G)
| Receive.
Arguments Defer {G}.
Arguments Call {G}.
Arguments Go {G}.
Arguments Receive {G}.

Record state (G : Type) : Type := mkState {
  code : list (stmt G);
  deferred : list call;
  wg : Z;
  done_calls : nat;
  started : list G;
  stop_ready : bool;
  panicked : bool
}.
Arguments mkState {G}.
Arguments code {G}.
Arguments deferred {G}.
Arguments wg {G}.
Arguments done_calls {G}.
Arguments started {G}.
Arguments stop_ready {G}.
Arguments panicked {G}.

(** [sync.WaitGroup]: [Add] panics when the counter goes negative, [Done]
    is [Add(-1)]. *)
Definition do_Add {G} (delta : Z) (rest : list (stmt G)) (ds : list call)
    (dones : nat) (st : state G) : state G :=
  mkState rest ds (wg st + delta) dones (started st) (stop_ready st)
          (wg st + delta <? 0)%Z.

Definition do_call {G} (c : call) (rest : list (stmt G)) (ds : list call)
    (st : state G) : state G :=
  match c with
  | wg_Add delta => do_Add delta rest ds (done_calls st) st
  | wg_Done => do_Add (-1) rest ds (S (done_calls st)) st
  end.

(** The function has returned when its body and its deferred calls are
    exhausted. *)
Definition returned {G} (st : state G) : bool :=
  match code st, deferred st with
  | [], [] => negb (panicked st)
  | _, _ => false
  end.

(** One step of the goroutine.  A receive proceeds only when the channel
    is ready (closed, or a value is offered); otherwise the goroutine
    stays where it is.  Deferred calls run last-in first-out once the body
    is exhausted. *)
Definition step {G} (st : state G) : state G :=
  if panicked st then st else
  match code st with
  | Defer c :: rest =>
      mkState rest (c :: deferred st) (wg st) (done_calls st) (started st)
              (stop_ready st) false
  | Call c :: rest => do_call c rest (deferred st) st
  | Go g :: rest =>
      mkState rest (deferred st) (wg st) (done_calls st) (started st ++ [g])
              (stop_ready st) false
  | Receive :: rest =>
      if stop_ready st
      then mkState rest (deferred st) (wg st) (done_calls st) (started st) true false
      else st
  | [] =>
      match deferred st with
      | c :: ds => do_call c [] ds st
      | [] => st
      end
  end.

(** The environment: at each tick the stop signal fires or not, then the
    goroutine takes a step. *)
Definition fire {G} (fired : bool) (st : state G) : state G :=
  mkState (code st) (deferred st) (wg st) (done_calls st) (started st)
          (stop_ready st || fired) (panicked st).

Definition tick {G} (st : state G) (fired : bool) : state G := step (fire fired st).

Definition exec {G} (env : list bool) (st : state G) : state G :=
  fold_left tick env st.

Definition enter {G} (body : list (stmt G)) (counter : Z) : state G :=
  mkState body [] counter 0 [] false false.

End GoThread.

#[export] Instance M_ret {C} : MRet (Effects.M C) := @Effects.ret C.
#[export] Instance M_bind {C} : MBind (Effects.M C) :=
  fun A B k m => Effects.bind m k.

(** ** The controller *)

Module Controller.
Import K8s Effects.

(** [fmt.Sprintf] at the three shapes the handler uses: one [%s] verb
    between a fixed head and a fixed tail. *)
Definition Sprintf1 (head arg tail : string) : string := head +:+ arg +:+ tail.

(** The unchecked type assertion of [obj] to a [*v1.Namespace] (line 71). *)
Definition assert_ptr_Namespace {C} (obj : iface) : M C (option Namespace_) :=
  match obj with
  | ptr_Namespace p => mret p
  | nil_iface =>
      panic "interface conversion: interface {} is nil, not *v1.Namespace"
  | other_value ty =>
      panic (Sprintf1 "interface conversion: interface {} is " ty
                      ", not *v1.Namespace")
  end.

(** [namespaceObj.Name]: a field read through the pointer. *)
Definition read_Name {C} (p : option Namespace_) : M C string :=
  match p with
  | Some ns => mret (Name (ns_ObjectMeta ns))
  | None => panic "runtime error: invalid memory address or nil pointer dereference"
  end.

Definition limit_body (limitRangeName namespaceName : string) : LimitRange :=
  {| lr_TypeMeta := {| Kind := "LimitRange"; APIVersion := "v1" |};
     lr_ObjectMeta := {| Name := limitRangeName; Namespace := namespaceName;
                         Labels := ∅; Annotations := ∅ |};
     lr_Spec := {| Limits := [
       {| Type_ := LimitTypeContainer;
          Max := ∅;
          Min := ∅;
          Default := {[ "memory" := NewQuantity (128 * 1024 * 1024) BinarySI ]};
          DefaultRequest := {[ "memory" := NewQuantity (128 * 1024 * 1024) BinarySI ]};
          MaxLimitRequestRatio := ∅ |} ] |} |}.

Definition quota_body (resourceQuotaName namespaceName : string) : ResourceQuota :=
  {| rq_TypeMeta := {| Kind := "ResourceQuota"; APIVersion := "v1" |};
     rq_ObjectMeta := {| Name := resourceQuotaName; Namespace := namespaceName;
                         Labels := ∅; Annotations := ∅ |};
     rq_Spec := {| Hard := <[ "services.loadbalancers" := NewQuantity 0 BinarySI ]>
                            (<[ "services.nodeports" := NewQuantity 0 BinarySI ]> ∅);
                   Scopes := [] |} |}.

(** [func (c *NamespaceController) createCustomRules(obj interface{})] *)
Definition createCustomRules {C} (kclient : Clientset C) (obj : iface) : M C unit :=
  namespaceObj ← assert_ptr_Namespace obj;
  namespaceName ← read_Name namespaceObj;
  let '(adminNamespaces, _) := Regexp.MatchString "kube-.*" namespaceName in
  let limitRangeName := Sprintf1 "lr-auto-" namespaceName "" in
  if negb (Bool.eqb adminNamespaces true) then
    let limit := limit_body limitRangeName namespaceName in
    r ← call_LimitRanges_Create kclient namespaceName limit;
    match snd r with
    | Some err => log_Println (Sprintf1 "Failed to create limitRange: " err "")
    | None => log_Println (Sprintf1 "limitRange for Namespace: " namespaceName " created")
    end;;
    let resourceQuotaName := Sprintf1 "rq-auto-" namespaceName "" in
    let quota := quota_body resourceQuotaName namespaceName in
    r ← call_ResourceQuotas_Create kclient namespaceName quota;
    match snd r with
    | Some err => log_Println (Sprintf1 "Failed to create ResourceQuotas: " err "")
    | None => log_Println (Sprintf1 "ResourceQuotas for Namespace: " namespaceName " created")
    end
  else
    log_Println (Sprintf1 "Skip admin namespace: " namespaceName "").

(** The log line that follows a creation call. *)
Definition outcome_line (what_failed what_created namespaceName : string)
    (err : error) : string :=
  match err with
  | Some e => Sprintf1 what_failed e ""
  | None => Sprintf1 what_created namespaceName " created"
  end.

(** The events one invocation adds for a namespace that is not skipped. *)
Definition provision_events (n : string)
    (r1 : option LimitRange * error) (r2 : option ResourceQuota * error)
    : list event :=
  [ CreateLimitRange n (limit_body (Sprintf1 "lr-auto-" n "") n);
    LogLine (outcome_line "Failed to create limitRange: "
                          "limitRange for Namespace: " n (snd r1));
    CreateResourceQuota n (quota_body (Sprintf1 "rq-auto-" n "") n);
    LogLine (outcome_line "Failed to create ResourceQuotas: "
                          "ResourceQuotas for Namespace: " n (snd r2)) ].

(** Whether an [interface{}] value holds a Namespace object. *)
Definition is_Namespace (obj : iface) : bool :=
  match obj with
  | ptr_Namespace (Some _) => true
  | _ => false
  end.

(** *** The informer of [k8s.io/client-go/tools/cache], as far as the
    constructor configures it *)

(** [time.Duration] counts nanoseconds in an [int64]. *)
Definition Nanosecond : Z := 1.
Definition Microsecond : Z := 1000 * Nanosecond.
Definition Millisecond : Z := 1000 * Microsecond.
Definition Second : Z := 1000 * Millisecond.
Definition Minute : Z := 60 * Second.

Record ListWatch (C : Type) : Type := mkListWatch {
  ListFunc : ListOptions -> C -> list Namespace_ * error;
  WatchFunc : ListOptions -> C -> list (EventType * Namespace_) * error
}.
Arguments mkListWatch {C}.
Arguments ListFunc {C}.
Arguments WatchFunc {C}.

Record ResourceEventHandlerFuncs (C : Type) : Type := mkHandlerFuncs {
  AddFunc : option (iface -> M C unit);
  UpdateFunc : option (iface -> iface -> M C unit);
  DeleteFunc : option (iface -> M C unit)
}.
Arguments mkHandlerFuncs {C}.
Arguments AddFunc {C}.
Arguments UpdateFunc {C}.
Arguments DeleteFunc {C}.

(** [OnAdd], [OnUpdate], [OnDelete]: call the function if it is not nil. *)
Definition OnAdd {C} (r : ResourceEventHandlerFuncs C) (obj : iface) : M C unit :=
  match AddFunc r with Some f => f obj | None => mret tt end.

Definition OnUpdate {C} (r : ResourceEventHandlerFuncs C) (oldObj newObj : iface)
    : M C unit :=
  match UpdateFunc r with Some f => f oldObj newObj | None => mret tt end.

Definition OnDelete {C} (r : ResourceEventHandlerFuncs C) (obj : iface) : M C unit :=
  match DeleteFunc r with Some f => f obj | None => mret tt end.

Definition IndexFunc : Type := iface -> list string * error.

Definition NamespaceIndex : string := "namespace".

Definition MetaNamespaceIndexFunc : IndexFunc := fun obj =>
  match obj with
  | ptr_Namespace (Some ns) => ([Namespace (ns_ObjectMeta ns)], None)
  | _ => ([""], Some "object has no meta")
  end.

Record SharedIndexInformer (C : Type) : Type := mkInformer {
  listerWatcher : ListWatch C;
  objectType : iface;
  defaultEventHandlerResyncPeriod : Z;
  indexers : gmap string IndexFunc;
  handlers : list (ResourceEventHandlerFuncs C)
}.
Arguments mkInformer {C}.
Arguments listerWatcher {C}.
Arguments objectType {C}.
Arguments defaultEventHandlerResyncPeriod {C}.
Arguments indexers {C}.
Arguments handlers {C}.

Definition NewSharedIndexInformer {C} (lw : ListWatch C) (objType : iface)
    (defaultEventHandlerResyncPeriod : Z) (indexers : gmap string IndexFunc)
    : SharedIndexInformer C :=
  mkInformer lw objType defaultEventHandlerResyncPeriod indexers [].

Definition AddEventHandler {C} (s : SharedIndexInformer C)
    (handler : ResourceEventHandlerFuncs C) : SharedIndexInformer C :=
  mkInformer (listerWatcher s) (objectType s)
             (defaultEventHandlerResyncPeriod s) (indexers s)
             (handlers s ++ [handler]).

(** What the informer delivers to its handlers. *)
Inductive notification : Type :=
| addNotification (newObj : iface)
| updateNotification (oldObj newObj : iface)
| deleteNotification (oldObj : iface).

Definition notify {C} (r : ResourceEventHandlerFuncs C) (n : notification) : M C unit :=
  match n with
  | addNotification newObj => OnAdd r newObj
  | updateNotification oldObj newObj => OnUpdate r oldObj newObj
  | deleteNotification oldObj => OnDelete r oldObj
  end.

Fixpoint distribute {C} (hs : list (ResourceEventHandlerFuncs C)) (n : notification)
    : M C unit :=
  match hs with
  | [] => mret tt
  | h :: hs' => notify h n;; distribute hs' n
  end.

(** The handler thread: notifications are delivered one at a time, in
    order. *)
Fixpoint deliver {C} (s : SharedIndexInformer C) (ns : list notification) : M C unit :=
  match ns with
  | [] => mret tt
  | n :: ns' => distribute (handlers s) n;; deliver s ns'
  end.

Record NamespaceController (C : Type) : Type := mkController {
  namespaceInformer : SharedIndexInformer C;
  kclient : Clientset C
}.
Arguments mkController {C}.
Arguments namespaceInformer {C}.
Arguments kclient {C}.

Definition zero_Namespace : Namespace_ :=
  {| ns_TypeMeta := {| Kind := ""; APIVersion := "" |};
     ns_ObjectMeta := {| Name := ""; Namespace := ""; Labels := ∅; Annotations := ∅ |};
     ns_Spec := {| Finalizers := [] |};
     ns_Status := {| Phase := "" |} |}.

(** [func NewNamespaceController(kclient *kubernetes.Clientset) *NamespaceController].
    The registered method value [namespaceWatcher.createCustomRules] reads
    [c.kclient] when it is called, by which time line 63 has stored
    [kclient] there. *)
Definition NewNamespaceController {C} (kclient : Clientset C) : NamespaceController C :=
  let namespaceInformer :=
    NewSharedIndexInformer
      {| ListFunc := fun options => Namespaces_List kclient options;
         WatchFunc := fun options => Namespaces_Watch kclient options |}
      (ptr_Namespace (Some zero_Namespace))
      (3 * Minute)
      {[ NamespaceIndex := MetaNamespaceIndexFunc ]} in
  let namespaceInformer :=
    AddEventHandler namespaceInformer
      {| AddFunc := Some (createCustomRules kclient);
         UpdateFunc := None;
         DeleteFunc := None |} in
  {| kclient := kclient; namespaceInformer := namespaceInformer |}.

(** The goroutine [Run] starts: [c.namespaceInformer.Run(stopCh)]. *)
Inductive goroutine (C : Type) : Type :=
| informer_Run (s : SharedIndexInformer C).
Arguments informer_Run {C}.

(** [func (c *NamespaceController) Run(stopCh <-chan struct{}, wg *sync.WaitGroup)] *)
Definition Run {C} (c : NamespaceController C) : list (GoThread.stmt (goroutine C)) :=
  [ GoThread.Defer GoThread.wg_Done;
    GoThread.Call (GoThread.wg_Add 1);
    GoThread.Go (informer_Run (namespaceInformer c));
    GoThread.Receive ].

(** The states [Run] passes through, numbered by how far it has got: 0 at
    entry, 1 after the [defer], 2 after [wg.Add(1)], 3 once the informer
    goroutine is started and the receive is pending, 4 after the receive,
    5 once the deferred [wg.Done()] has run.  [r] is whether the stop
    channel is ready. *)
Definition Run_at {C} (c : NamespaceController C) (counter : Z) (i : nat) (r : bool)
    : GoThread.state (goroutine C) :=
  let g := informer_Run (namespaceInformer c) in
  match i with
  | 0 => GoThread.mkState (Run c) [] counter 0 [] r false
  | 1 => GoThread.mkState (skipn 1 (Run c)) [GoThread.wg_Done] counter 0 [] r false
  | 2 => GoThread.mkState (skipn 2 (Run c)) [GoThread.wg_Done] (counter + 1) 0 [] r false
  | 3 => GoThread.mkState (skipn 3 (Run c)) [GoThread.wg_Done] (counter + 1) 0 [g] r false
  | 4 => GoThread.mkState [] [GoThread.wg_Done] (counter + 1) 0 [g] true false
  | _ => GoThread.mkState [] [] (counter + 1 + -1) 1 [g] true false
  end.

(** How the number moves at a tick on which the stop signal fires ([f]) or
    not. *)
Definition advance (p : nat * bool) (f : bool) : nat * bool :=
  let r := snd p || f in
  match fst p with
  | 0 | 1 | 2 => (S (fst p), r)
  | 3 => (if r then 4%nat else 3%nat, r)
  | _ => (5%nat, r)
  end.

Definition position (env : list bool) : nat * bool :=
  fold_left advance env (0%nat, false).

(** Vocabulary for sequences of notifications. *)
Definition is_add (n : notification) : bool :=
  match n with
  | addNotification _ => true
  | _ => false
  end.

(** The add notifications for a list of namespace objects. *)
Definition adds (nss : list Namespace_) : list notification :=
  map (fun ns => addNotification (ptr_Namespace (Some ns))) nss.

(** The handler's classification of a namespace object (line 74). *)
Definition skipped (ns : Namespace_) : bool :=
  fst (Regexp.MatchString "kube-.*" (Name (ns_ObjectMeta ns))).

(** The creation calls one invocation makes for a namespace object. *)
Definition requests_for (ns : Namespace_) : list event :=
  let n := Name (ns_ObjectMeta ns) in
  if skipped ns then []
  else [ CreateLimitRange n (limit_body ("lr-auto-" +:+ n) n);
         CreateResourceQuota n (quota_body ("rq-auto-" +:+ n) n) ].

End Controller.

(** ** Test doubles for the cluster client *)

Module Fake.
Import K8s.

(** A cluster that remembers the names of the objects created in it and
    refuses a second object of the same name in the same namespace. *)
Record cluster : Type := mkCluster {
  namespaces : list Namespace_;
  limitranges : list (string * string);
  resourcequotas : list (string * string)
}.

Definition has (key : string * string) (l : list (string * string)) : bool :=
  existsb (fun k => String.eqb (fst k) (fst key) && String.eqb (snd k) (snd key)) l.

Definition clientset : Clientset cluster :=
  {| Namespaces_List := fun _ c => (namespaces c, None);
     Namespaces_Watch := fun _ c => ([], None);
     LimitRanges_Create := fun ns body c =>
       let key := (ns, Name (lr_ObjectMeta body)) in
       if has key (limitranges c)
       then ((None, Some ("limitranges " +:+ snd key +:+ " already exists")), c)
       else ((Some body, None),
             mkCluster (namespaces c) (key :: limitranges c) (resourcequotas c));
     ResourceQuotas_Create := fun ns body c =>
       let key := (ns, Name (rq_ObjectMeta body)) in
       if has key (resourcequotas c)
       then ((None, Some ("resourcequotas " +:+ snd key +:+ " already exists")), c)
       else ((Some body, None),
             mkCluster (namespaces c) (limitranges c) (key :: resourcequotas c)) |}.

Definition empty : cluster := mkCluster [] [] [].

(** A client none of whose calls gets through. *)
Definition unreachable : Clientset unit :=
  {| Namespaces_List := fun _ c => ([], Some "connection refused");
     Namespaces_Watch := fun _ c => ([], Some "connection refused");
     LimitRanges_Create := fun _ _ c => ((None, Some "connection refused"), c);
     ResourceQuotas_Create := fun _ _ c => ((None, Some "connection refused"), c) |}.

(** A namespace object with the given name and some other fields set. *)
Definition namespace_named (name : string) : Namespace_ :=
  {| ns_TypeMeta := {| Kind := "Namespace"; APIVersion := "v1" |};
     ns_ObjectMeta := {| Name := name; Namespace := "";
                         Labels := ∅; Annotations := ∅ |};
     ns_Spec := {| Finalizers := ["kubernetes"] |};
     ns_Status := {| Phase := "Active" |} |}.

Definition labelled (name team : string) : Namespace_ :=
  {| ns_TypeMeta := {| Kind := "Namespace"; APIVersion := "v1" |};
     ns_ObjectMeta := {| Name := name; Namespace := "";
                         Labels := {[ "team" := team ]}; Annotations := ∅ |};
     ns_Spec := {| Finalizers := [] |};
     ns_Status := {| Phase := "Terminating" |} |}.

End Fake.

(** * Properties *)

(** ** Substring search *)

Section Substrings.

Lemma bytes_app (s t : string) : bytes (s +:+ t) = bytes s ++ bytes t.
Proof.
  unfold bytes. induction s as [|a s IH]; simpl; [reflexivity|].
  now rewrite IH.
Qed.

Lemma starts_with_spec (p s : list ascii) :
  starts_with p s = true <-> exists post, s = p ++ post.
Proof.
  revert s. induction p as [|a p IH]; intros s; simpl.
  - split; [intros _; now exists s | reflexivity].
  - destruct s as [|b s].
    + split; [discriminate | intros [post H]; discriminate].
    + destruct (Ascii.eqb_spec a b) as [->|Hab].
      * rewrite IH. split; intros [post H]; exists post.
        -- now rewrite H.
        -- now injection H.
      * split; [discriminate|]. intros [post H]. injection H as H1 _.
        now subst.
Qed.

Lemma find_sub_spec (sub s : list ascii) :
  find_sub sub s = true <-> occurs_in sub s.
Proof.
  unfold occurs_in. induction s as [|b s IH].
  - simpl. rewrite orb_false_r, starts_with_spec. split.
    + intros [post H]. now exists [], post.
    + intros [pre [post H]]. destruct pre; simpl in H.
      * now exists post.
      * discriminate.
  - cbn [find_sub]. rewrite orb_true_iff, IH, starts_with_spec. split.
    + intros [[post H] | [pre [post H]]].
      * now exists [], post.
      * exists (b :: pre), post. now rewrite H.
    + intros [pre [post H]]. destruct pre as [|c pre]; simpl in H.
      * left. now exists post.
      * right. injection H as _ H. now exists pre, post.
Qed.

Lemma Contains_middle (a b c : string) : Contains (a +:+ b +:+ c) b = true.
Proof.
  unfold Contains. rewrite find_sub_spec, !bytes_app.
  now exists (bytes a), (bytes c).
Qed.

End Substrings.

(** ** The matcher agrees with the denotation *)

Module RegexpFacts.
Import Regexp.

Create HintDb re.
#[local] Hint Constructors lang : re.

Lemma lang_cat_inv r1 r2 w :
  lang (Cat r1 r2) w -> exists u v, w = u ++ v /\ lang r1 u /\ lang r2 v.
Proof. intros H. inversion H; subst. eauto. Qed.

Lemma nullable_lang r : nullable r = true <-> lang r [].
Proof.
  induction r; simpl; split; intros H;
    try discriminate; auto with re; try (now inversion H).
  - apply andb_true_iff in H as [H1 H2].
    change (@nil ascii) with (@nil ascii ++ []). apply lang_cat; tauto.
  - apply lang_cat_inv in H as (u & v & Heq & Hu & Hv). symmetry in Heq.
    apply app_eq_nil in Heq as [-> ->]. apply andb_true_iff. tauto.
  - apply orb_true_iff in H as [H|H]; [apply lang_alt_l|apply lang_alt_r]; tauto.
  - apply orb_true_iff. inversion H; subst; tauto.
Qed.

Lemma lang_star_cons r a w :
  lang (Star r) (a :: w) ->
  exists u v, w = u ++ v /\ lang r (a :: u) /\ lang (Star r) v.
Proof.
  remember (Star r) as s eqn:Hs. remember (a :: w) as aw eqn:Haw.
  intros H. revert r a w Hs Haw.
  induction H; intros r0 a0 w0 Hs Haw; try discriminate.
  injection Hs as ->. destruct u as [|b u]; simpl in Haw.
  - subst v. now apply IHlang2.
  - injection Haw as -> <-. now exists u, v.
Qed.

Lemma deriv_lang a r w : lang (deriv a r) w <-> lang r (a :: w).
Proof.
  revert w. induction r; intros w; simpl.
  - split; intros H; inversion H.
  - split; intros H; inversion H.
  - destruct (Ascii.eqb_spec a a0) as [->|Hne]; split; intros H; inversion H; subst;
      auto with re; congruence.
  - destruct (Ascii.eqb_spec a newline) as [->|Hne]; split; intros H; inversion H; subst;
      auto with re; congruence.
  - split; intros H; inversion H; subst; auto with re.
  - assert (Hcat : lang (Cat (deriv a r1) r2) w ->
                   lang (Cat r1 r2) (a :: w)).
    { intros H. inversion H; subst.
      change (a :: u ++ v) with ((a :: u) ++ v).
      apply lang_cat; [now apply IHr1 | assumption]. }
    assert (Hinv : lang (Cat r1 r2) (a :: w) ->
                   lang (Cat (deriv a r1) r2) w \/
                   (lang r1 [] /\ lang r2 (a :: w))).
    { intros H. apply lang_cat_inv in H as (u & v & Heq & Hu & Hv).
      destruct u as [|b u]; simpl in Heq.
      - subst v. now right.
      - injection Heq as <- ->. left. apply lang_cat; [now apply IHr1 | assumption]. }
    destruct (nullable r1) eqn:Hn.
    + split; intros H.
      * inversion H; subst; [now apply Hcat|].
        change (a :: w) with ([] ++ a :: w).
        apply lang_cat; [now apply nullable_lang | now apply IHr2].
      * destruct (Hinv H) as [H1 | [_ H2]];
          [now apply lang_alt_l | apply lang_alt_r; now apply IHr2].
    + split; intros H; [now apply Hcat|].
      destruct (Hinv H) as [H1 | [H1 _]]; [assumption|].
      apply nullable_lang in H1. congruence.
  - split; intros H.
    + inversion H; subst; [apply lang_alt_l; now apply IHr1 | apply lang_alt_r; now apply IHr2].
    + inversion H; subst; [apply lang_alt_l; now apply IHr1 | apply lang_alt_r; now apply IHr2].
  - split; intros H.
    + inversion H; subst.
      change (a :: u ++ v) with ((a :: u) ++ v).
      apply lang_star_app; [now apply IHr | assumption].
    + apply lang_star_cons in H as (u & v & -> & Hu & Hv).
      apply lang_cat; [now apply IHr | assumption].
Qed.

Lemma full_match_lang r w : full_match r w = true <-> lang r w.
Proof.
  revert r. induction w as [|a w IH]; intros r; simpl.
  - apply nullable_lang.
  - rewrite IH. apply deriv_lang.
Qed.

Lemma lang_star_any w : lang (Star AnyByte) w.
Proof.
  induction w as [|a w IH]; [constructor|].
  change (a :: w) with ([a] ++ w). apply lang_star_app; [constructor | assumption].
Qed.

(** The unanchored search finds a match anywhere in the subject. *)
Lemma search_lang r w :
  search r w = true <-> exists pre m post, w = pre ++ m ++ post /\ lang r m.
Proof.
  unfold search. rewrite full_match_lang. split.
  - intros H. apply lang_cat_inv in H as (pre & v & -> & _ & Hv).
    apply lang_cat_inv in Hv as (m & post & -> & Hm & _).
    now exists pre, m, post.
  - intros (pre & m & post & -> & Hm).
    apply lang_cat; [apply lang_star_any|].
    apply lang_cat; [assumption | apply lang_star_any].
Qed.

End RegexpFacts.

(** ** The classification pattern *)

Module Pattern.
Import Regexp RegexpFacts.

Lemma Compile_kube : Compile "kube-.*" = Some kube_re.
Proof. reflexivity. Qed.

Lemma lang_lit_inv a w : lang (Lit a) w -> w = [a].
Proof. intros H. now inversion H. Qed.

Lemma lang_kube_prefix m :
  lang kube_re m -> exists rest, m = bytes "kube-" ++ rest.
Proof.
  unfold kube_re. intros H.
  repeat (apply lang_cat_inv in H as (? & ? & -> & ?%lang_lit_inv & H); subst).
  eexists. reflexivity.
Qed.

Lemma lang_kube_literal : lang kube_re (bytes "kube-").
Proof. apply full_match_lang. reflexivity. Qed.

Lemma search_kube w :
  search kube_re w = true <-> occurs_in (bytes "kube-") w.
Proof.
  rewrite search_lang. unfold occurs_in. split.
  - intros (pre & m & post & -> & Hm).
    apply lang_kube_prefix in Hm as [rest ->].
    exists pre, (rest ++ post). now rewrite <- app_assoc.
  - intros (pre & post & ->).
    exists pre, (bytes "kube-"), post. split; [reflexivity | apply lang_kube_literal].
Qed.

(** With an unanchored pattern whose tail is [.*], matching is substring
    search for the literal head; the pattern always compiles. *)
Lemma MatchString_kube (s : string) :
  MatchString "kube-.*" s = (Contains s "kube-", None).
Proof.
  unfold MatchString. rewrite Compile_kube. f_equal.
  unfold Contains. apply eq_true_iff_eq.
  now rewrite search_kube, find_sub_spec.
Qed.

(** A name that begins with [kube-] matches. *)
Lemma HasPrefix_Contains (s p : string) :
  HasPrefix s p = true -> Contains s p = true.
Proof.
  unfold HasPrefix, Contains. rewrite starts_with_spec, find_sub_spec.
  intros [post ->]. now exists [], post.
Qed.

End Pattern.

(** ** The handler, unfolded *)

Section Handler.
Import K8s Effects Controller.

Context {C : Type}.
Variable kclient : Clientset C.

Lemma Sprintf1_nil (head arg : string) : Sprintf1 head arg "" = head +:+ arg.
Proof.
  unfold Sprintf1. f_equal. induction arg as [|a arg IH]; [reflexivity|].
  change (String a (arg +:+ "") = String a arg). now rewrite IH.
Qed.

Lemma createCustomRules_skip (ns : Namespace_) (w : World C) :
  let n := Name (ns_ObjectMeta ns) in
  fst (Regexp.MatchString "kube-.*" n) = true ->
  createCustomRules kclient (ptr_Namespace (Some ns)) w =
  (Ret tt, mkWorld (cluster w)
                   (trace w ++ [LogLine (Sprintf1 "Skip admin namespace: " n "")])).
Proof.
  intros n H. unfold createCustomRules, mbind, M_bind, bind.
  cbn -[Regexp.MatchString]. fold n. destruct (Regexp.MatchString "kube-.*" n) as [b e]. simpl in H. subst b.
  reflexivity.
Qed.

Lemma createCustomRules_provision (ns : Namespace_) (w : World C) :
  let n := Name (ns_ObjectMeta ns) in
  fst (Regexp.MatchString "kube-.*" n) = false ->
  let lr := LimitRanges_Create kclient n (limit_body (Sprintf1 "lr-auto-" n "") n)
                               (cluster w) in
  let rq := ResourceQuotas_Create kclient n (quota_body (Sprintf1 "rq-auto-" n "") n)
                                  (snd lr) in
  createCustomRules kclient (ptr_Namespace (Some ns)) w =
  (Ret tt, mkWorld (snd rq) (trace w ++ provision_events n (fst lr) (fst rq))).
Proof.
  intros n H lr rq. unfold createCustomRules, mbind, M_bind, bind.
  cbn -[Regexp.MatchString]. fold n. destruct (Regexp.MatchString "kube-.*" n) as [b e]. simpl in H. subst b.
  simpl. unfold call_LimitRanges_Create, call_ResourceQuotas_Create, log_Println, emit.
  subst rq lr.
  destruct (LimitRanges_Create kclient n _ (cluster w)) as [[o1 e1] c1]. simpl.
  destruct e1 as [e1|]; simpl;
    destruct (ResourceQuotas_Create kclient n _ c1) as [[o2 e2] c2]; simpl;
    destruct e2 as [e2|]; simpl; unfold provision_events; simpl;
    rewrite <- !app_assoc; reflexivity.
Qed.

End Handler.

(** ** Projections of traces *)

Section Traces.
Import K8s Effects.

Lemma calls_app (t u : list event) : calls (t ++ u) = calls t ++ calls u.
Proof. unfold calls. apply List.filter_app. Qed.

Lemma logs_app (t u : list event) : logs (t ++ u) = logs t ++ logs u.
Proof. unfold logs. apply omap_app. Qed.

End Traces.

(** ** The add-event handler *)

Section HandlerProperties.
Import K8s Effects Controller.

Context {C : Type}.
Implicit Types (kclient : Clientset C) (ns : Namespace_) (w : World C).

(** Every name without the substring [kube-] gets both creation calls, in
    order, whatever the client answers. *)
Lemma createCustomRules_calls kclient ns w :
  let n := Name (ns_ObjectMeta ns) in
  fst (Regexp.MatchString "kube-.*" n) = false ->
  calls (trace (snd (createCustomRules kclient (ptr_Namespace (Some ns)) w))) =
  calls (trace w) ++
  [ CreateLimitRange n (limit_body ("lr-auto-" +:+ n) n);
    CreateResourceQuota n (quota_body ("rq-auto-" +:+ n) n) ].
Proof.
  intros n H. rewrite (createCustomRules_provision kclient ns w H). cbn [snd trace].
  rewrite calls_app. unfold provision_events. rewrite !Sprintf1_nil. reflexivity.
Qed.

(** C2: a namespace whose name matches [kube-.*] leads to no creation call
    and to exactly one log line, the skip notice; the cluster is left as it
    was and the handler returns. *)
Theorem skip_matching_namespace kclient ns w :
  let n := Name (ns_ObjectMeta ns) in
  fst (Regexp.MatchString "kube-.*" n) = true ->
  let out := createCustomRules kclient (ptr_Namespace (Some ns)) w in
  fst out = Ret tt /\
  cluster (snd out) = cluster w /\
  calls (trace (snd out)) = calls (trace w) /\
  logs (trace (snd out)) = logs (trace w) ++ ["Skip admin namespace: " +:+ n].
Proof.
  intros n H out. subst out.
  rewrite (createCustomRules_skip kclient ns w H). cbn [fst snd cluster trace].
  rewrite calls_app, logs_app, Sprintf1_nil. cbn.
  rewrite app_nil_r. auto.
Qed.

(** C3: for a namespace that is not skipped, the handler submits one
    LimitRange, first of all it does; the body is named [lr-auto-<n>], lies
    in namespace [n], and has a single limit entry, of type Container,
    whose default and default-request are each the one resource [memory]
    at 134217728 bytes. *)
Theorem limit_range_request kclient ns w :
  let n := Name (ns_ObjectMeta ns) in
  fst (Regexp.MatchString "kube-.*" n) = false ->
  exists body rest item q,
    trace (snd (createCustomRules kclient (ptr_Namespace (Some ns)) w)) =
      trace w ++ CreateLimitRange n body :: rest /\
    (forall n' b, ~ In (CreateLimitRange n' b) rest) /\
    Kind (lr_TypeMeta body) = "LimitRange" /\
    Name (lr_ObjectMeta body) = "lr-auto-" +:+ n /\
    Namespace (lr_ObjectMeta body) = n /\
    Limits (lr_Spec body) = [item] /\
    Type_ item = LimitTypeContainer /\
    Default item = {[ "memory" := q ]} /\
    DefaultRequest item = {[ "memory" := q ]} /\
    Value q = 134217728%Z.
Proof.
  intros n H. rewrite (createCustomRules_provision kclient ns w H). cbn [snd trace].
  unfold provision_events. rewrite !Sprintf1_nil.
  eexists _, _, _, _. split; [reflexivity|].
  split.
  { intros n' b [Hin|[Hin|[Hin|[]]]]; discriminate. }
  repeat split; reflexivity.
Qed.

(** C4: for a namespace that is not skipped, the handler submits one
    ResourceQuota; the body is named [rq-auto-<n>], lies in namespace [n],
    and its hard limits are exactly [services.loadbalancers] and
    [services.nodeports], both the quantity 0 (amount 0 at scale 0, as
    [resource.NewQuantity(0, resource.BinarySI)] builds it). *)
Theorem resource_quota_request kclient ns w :
  let n := Name (ns_ObjectMeta ns) in
  fst (Regexp.MatchString "kube-.*" n) = false ->
  exists body before after q,
    trace (snd (createCustomRules kclient (ptr_Namespace (Some ns)) w)) =
      trace w ++ before ++ CreateResourceQuota n body :: after /\
    (forall n' b, ~ In (CreateResourceQuota n' b) (before ++ after)) /\
    Kind (rq_TypeMeta body) = "ResourceQuota" /\
    Name (rq_ObjectMeta body) = "rq-auto-" +:+ n /\
    Namespace (rq_ObjectMeta body) = n /\
    Hard (rq_Spec body) !! "services.loadbalancers" = Some q /\
    Hard (rq_Spec body) !! "services.nodeports" = Some q /\
    dom (Hard (rq_Spec body)) = {[ "services.loadbalancers"; "services.nodeports" ]} /\
    q = NewQuantity 0 BinarySI /\
    amount q = 0%Z /\
    scale q = 0%Z.
Proof.
  intros n H. rewrite (createCustomRules_provision kclient ns w H). cbn [snd trace].
  unfold provision_events. rewrite !Sprintf1_nil.
  eexists _, [_; _], [_], _. split; [reflexivity|].
  split.
  { intros n' b [Hin|[Hin|[Hin|[]]]]; discriminate. }
  repeat split; reflexivity.
Qed.

End HandlerProperties.

Section HandlerOutcomes.
Import K8s Effects Controller.

Context {C : Type}.
Implicit Types (kclient : Clientset C) (ns : Namespace_) (c : C).

(** C5: for a namespace that is not skipped, the two submissions do not
    depend on each other's outcome: the creation calls of one invocation
    are the LimitRange call followed by the ResourceQuota call whatever the
    client answers; in particular, when the LimitRange call returns an
    error the failure is logged and the ResourceQuota call is still made,
    and an error of the ResourceQuota call leaves the LimitRange call
    made. *)
Theorem creation_calls_independent kclient ns c :
  let n := Name (ns_ObjectMeta ns) in
  fst (Regexp.MatchString "kube-.*" n) = false ->
  let limit := limit_body ("lr-auto-" +:+ n) n in
  let quota := quota_body ("rq-auto-" +:+ n) n in
  let lr := LimitRanges_Create kclient n limit c in
  let rq := ResourceQuotas_Create kclient n quota (snd lr) in
  let t := trace (snd (createCustomRules kclient (ptr_Namespace (Some ns))
                                         (mkWorld c []))) in
  calls t = [CreateLimitRange n limit; CreateResourceQuota n quota] /\
  (forall e, snd (fst lr) = Some e ->
     exists l, t = [CreateLimitRange n limit;
                    LogLine ("Failed to create limitRange: " +:+ e);
                    CreateResourceQuota n quota; LogLine l]) /\
  (forall e, snd (fst rq) = Some e ->
     exists l, t = [CreateLimitRange n limit; LogLine l;
                    CreateResourceQuota n quota;
                    LogLine ("Failed to create ResourceQuotas: " +:+ e)]).
Proof.
  intros n H limit quota lr rq t. subst t.
  rewrite (createCustomRules_provision kclient ns (mkWorld c []) H).
  subst rq lr quota limit n.
  cbn [snd trace cluster app]. unfold provision_events.
  rewrite !Sprintf1_nil.
  split; [reflexivity|]. split; intros e He; rewrite He; cbn [outcome_line];
    rewrite Sprintf1_nil; eexists; reflexivity.
Qed.

(** The log lines of one invocation, by outcome. *)
Lemma handler_log_lines kclient ns c :
  let n := Name (ns_ObjectMeta ns) in
  let limit := limit_body ("lr-auto-" +:+ n) n in
  let quota := quota_body ("rq-auto-" +:+ n) n in
  let lr := LimitRanges_Create kclient n limit c in
  let rq := ResourceQuotas_Create kclient n quota (snd lr) in
  let out := createCustomRules kclient (ptr_Namespace (Some ns)) (mkWorld c []) in
  let line1 := match snd (fst lr) with
               | Some e => "Failed to create limitRange: " +:+ e
               | None => "limitRange for Namespace: " +:+ n +:+ " created"
               end in
  let line2 := match snd (fst rq) with
               | Some e => "Failed to create ResourceQuotas: " +:+ e
               | None => "ResourceQuotas for Namespace: " +:+ n +:+ " created"
               end in
  fst out = Ret tt /\
  logs (trace (snd out)) =
    (if fst (Regexp.MatchString "kube-.*" n)
     then ["Skip admin namespace: " +:+ n]
     else [line1; line2]) /\
  (forall l, In l (logs (trace (snd out))) ->
     Contains l n = true \/
     exists e, (snd (fst lr) = Some e \/ snd (fst rq) = Some e) /\
               Contains l e = true).
Proof.
  intros n limit quota lr rq out line1 line2.
  assert (Hlr : lr = LimitRanges_Create kclient n
                       (limit_body (Sprintf1 "lr-auto-" n "") n) c).
  { subst lr limit. now rewrite Sprintf1_nil. }
  assert (Hrq : rq = ResourceQuotas_Create kclient n
                       (quota_body (Sprintf1 "rq-auto-" n "") n) (snd lr)).
  { subst rq quota. now rewrite Sprintf1_nil. }
  clearbody lr rq. clear limit quota.
  assert (Hmid : forall a b, Contains (a +:+ b) b = true).
  { intros a b. rewrite <- (Sprintf1_nil a b). apply Contains_middle. }
  destruct (fst (Regexp.MatchString "kube-.*" n)) eqn:H; subst out.
  - rewrite (createCustomRules_skip kclient ns (mkWorld c []) H).
    cbn [fst snd trace app logs omap log_of]. rewrite Sprintf1_nil.
    repeat split. intros l [<-|[]]. left. apply Hmid.
  - rewrite (createCustomRules_provision kclient ns (mkWorld c []) H).
    cbn [fst snd trace cluster app]. fold n. rewrite <- Hlr, <- Hrq.
    unfold provision_events. cbn [logs omap log_of].
    assert (H1 : outcome_line "Failed to create limitRange: "
                   "limitRange for Namespace: " n (snd (fst lr)) = line1).
    { subst line1. destruct (snd (fst lr)); cbn [outcome_line];
        [apply Sprintf1_nil | reflexivity]. }
    assert (H2 : outcome_line "Failed to create ResourceQuotas: "
                   "ResourceQuotas for Namespace: " n (snd (fst rq)) = line2).
    { subst line2. destruct (snd (fst rq)); cbn [outcome_line];
        [apply Sprintf1_nil | reflexivity]. }
    rewrite H1, H2. repeat split.
    intros l [<-|[<-|[]]].
    + subst line1. destruct (snd (fst lr)) as [e|].
      * right. exists e. split; [now left | apply Hmid].
      * left. apply Contains_middle.
    + subst line2. destruct (snd (fst rq)) as [e|].
      * right. exists e. split; [now right | apply Hmid].
      * left. apply Contains_middle.
Qed.

(** C9: the handler panics on exactly the payloads that are not a
    Namespace object (the nil interface, a value of another type, a nil
    pointer), and then before any call or log line; on a Namespace object
    it returns. *)
Theorem panics_unless_namespace kclient (obj : iface) (w : World C) :
  let out := createCustomRules kclient obj w in
  is_Panic (fst out) = negb (is_Namespace obj) /\
  (if is_Namespace obj then fst out = Ret tt else snd out = w).
Proof.
  destruct obj as [|[ns|]|ty]; cbn zeta; try (split; reflexivity).
  destruct (fst (Regexp.MatchString "kube-.*" (Name (ns_ObjectMeta ns)))) eqn:H.
  - rewrite (createCustomRules_skip kclient ns w H). split; reflexivity.
  - rewrite (createCustomRules_provision kclient ns w H). split; reflexivity.
Qed.

(** Same name, same run: the handler reads nothing of the object but its
    name. *)
Lemma createCustomRules_name_only kclient ns1 ns2 (w : World C) :
  Name (ns_ObjectMeta ns1) = Name (ns_ObjectMeta ns2) ->
  createCustomRules kclient (ptr_Namespace (Some ns1)) w =
  createCustomRules kclient (ptr_Namespace (Some ns2)) w.
Proof.
  intros Hname. unfold createCustomRules, mbind, M_bind, bind.
  cbn -[Regexp.MatchString]. rewrite Hname. reflexivity.
Qed.

End HandlerOutcomes.

(** ** [Run] *)

Section RunProperties.
Import K8s Effects Controller.

Context {C : Type}.
Variable c : NamespaceController C.
Variable counter : Z.
Hypothesis counter_nonneg : (0 <= counter)%Z.

Lemma tick_Run_at (i : nat) (r f : bool) :
  (4 <= i -> r = true) ->
  GoThread.tick (Run_at c counter i r) f =
  Run_at c counter (fst (advance (i, r) f)) (snd (advance (i, r) f)).
Proof.
  intros Hr.
  assert (H1 : (counter + 1 <? 0)%Z = false) by (apply Z.ltb_ge; lia).
  assert (H2 : (counter + 1 + -1 <? 0)%Z = false) by (apply Z.ltb_ge; lia).
  destruct i as [|[|[|[|[|i]]]]]; try (rewrite Hr by lia);
    destruct r, f;
    unfold GoThread.tick, GoThread.step, GoThread.fire, GoThread.do_call, GoThread.do_Add;
    cbn; rewrite ?H1, ?H2; reflexivity.
Qed.

Lemma position_snoc (env : list bool) (f : bool) :
  position (env ++ [f]) = advance (position env) f.
Proof. unfold position. now rewrite fold_left_app. Qed.

Lemma position_inv (env : list bool) :
  let p := position env in
  fst p <= 5 /\
  snd p = existsb id env /\
  (4 <= fst p -> snd p = true) /\
  (fst p <= 2 -> fst p = length env) /\
  (3 <= fst p -> 3 <= length env).
Proof.
  induction env as [|f env IH] using rev_ind.
  - cbn. repeat split; lia.
  - rewrite position_snoc. destruct (position env) as [i r].
    cbn [fst snd] in IH. destruct IH as (H5 & Hr & H4 & H2 & H3).
    rewrite existsb_app, length_app, <- Hr. cbn [existsb length id].
    rewrite orb_false_r. unfold advance. cbn [fst snd].
    destruct i as [|[|[|[|[|i]]]]]; cbn [fst snd]; try lia.
    + repeat split; lia.
    + repeat split; lia.
    + repeat split; lia.
    + destruct (r || f) eqn:E; cbn [fst snd]; repeat split; auto; lia.
    + rewrite (H4 ltac:(lia)). repeat split; auto; lia.
    + rewrite (H4 ltac:(lia)). repeat split; auto; lia.
Qed.

Lemma exec_Run (env : list bool) :
  GoThread.exec env (GoThread.enter (Run c) counter) =
  Run_at c counter (fst (position env)) (snd (position env)).
Proof.
  induction env as [|f env IH] using rev_ind; [reflexivity|].
  unfold GoThread.exec in *. rewrite fold_left_app. cbn [fold_left].
  rewrite IH, position_snoc, tick_Run_at.
  - now destruct (position env).
  - apply position_inv.
Qed.

Lemma advance_ready (tail : list bool) (i : nat) :
  i <= 5 -> 5 <= i + length tail ->
  fst (fold_left advance tail (i, true)) = 5 /\
  snd (fold_left advance tail (i, true)) = true.
Proof.
  revert i. induction tail as [|f tail IH]; intros i Hi Hlen; cbn [fold_left length] in *.
  - split; [cbn; lia | reflexivity].
  - destruct i as [|[|[|[|[|i]]]]]; unfold advance at 2 4; cbn [fst snd orb];
      apply IH; lia.
Qed.

(** C8: [Run], executed against any sequence of ticks on which the stop
    signal fires or not, never panics; it has returned only if the signal
    has fired, so until then the caller is held at the receive; from its
    third step on the informer's loop is started as a goroutine of its
    own, and nothing else is; [wg.Done()] has been called once if [Run]
    has returned and not at all otherwise, and the WaitGroup counter is
    then back at its initial value; and once the signal has fired [Run]
    does return, within five further ticks. *)
Theorem Run_blocks_until_stop (env : list bool) :
  let g := informer_Run (namespaceInformer c) in
  let st := GoThread.exec env (GoThread.enter (Run c) counter) in
  GoThread.panicked st = false /\
  (GoThread.returned st = true -> In true env) /\
  GoThread.started st = (if (3 <=? length env)%nat then [g] else []) /\
  GoThread.done_calls st = (if GoThread.returned st then 1 else 0) /\
  GoThread.wg st = (if GoThread.returned st then counter
                    else if (2 <=? length env)%nat then counter + 1 else counter)%Z /\
  (In true env ->
   forall tail, 5 <= length tail ->
     GoThread.returned
       (GoThread.exec (env ++ tail) (GoThread.enter (Run c) counter)) = true).
Proof.
  intros g st. subst st.
  assert (Hfired : existsb id env = true <-> In true env).
  { rewrite existsb_exists. split.
    - intros (x & Hin & Hx). unfold id in Hx. now subst x.
    - intros Hin. now exists true. }
  split; [|split; [|split; [|split; [|split]]]].
  6: {
    intros Hin tail Hlen. rewrite exec_Run.
    unfold position. rewrite fold_left_app. fold (position env).
    destruct (position_inv env) as (H5 & Hr & _).
    destruct (position env) as [i r]. cbn [fst snd] in *.
    rewrite (proj2 Hfired Hin) in Hr. subst r.
    destruct (advance_ready tail i H5 ltac:(lia)) as [-> ->]. reflexivity. }
  all: rewrite exec_Run; destruct (position_inv env) as (H5 & Hr & H4 & H2 & H3);
    destruct (position env) as [i r]; cbn [fst snd] in *.
  - destruct i as [|[|[|[|[|i]]]]]; reflexivity.
  - intros Hret. apply Hfired. rewrite <- Hr.
    destruct i as [|[|[|[|[|i]]]]]; try discriminate Hret; apply H4; lia.
  - destruct (Nat.leb_spec 3 (length env));
      destruct i as [|[|[|[|[|i]]]]]; try reflexivity; lia.
  - destruct i as [|[|[|[|[|i]]]]]; reflexivity.
  - destruct (Nat.leb_spec 2 (length env));
      destruct i as [|[|[|[|[|i]]]]]; cbn; try reflexivity; lia.
Qed.

End RunProperties.

(** ** The constructor *)

Section Constructor.
Import K8s Effects Controller.

Context {C : Type}.
Variable kclient : Clientset C.

Lemma bind_unit_ret (m : M C unit) (w : World C) :
  Effects.bind m (fun _ => Effects.ret tt) w = m w.
Proof.
  unfold Effects.bind, Effects.ret. destruct (m w) as [[[]|msg] w']; reflexivity.
Qed.

(** C7: the informer built by the constructor lists and watches the
    namespaces through the client, resynchronises every 3 minutes
    (180 * 10^9 ns), and has exactly one handler registered, whose add
    function is [createCustomRules] and whose update and delete functions
    are nil: an add notification runs the handler, an update or a delete
    notification does nothing. *)
Theorem namespace_subscription :
  let informer := namespaceInformer (NewNamespaceController kclient) in
  defaultEventHandlerResyncPeriod informer = 180000000000%Z /\
  defaultEventHandlerResyncPeriod informer = (3 * 60 * Second)%Z /\
  ListFunc (listerWatcher informer) = Namespaces_List kclient /\
  WatchFunc (listerWatcher informer) = Namespaces_Watch kclient /\
  (exists h, handlers informer = [h] /\
             AddFunc h = Some (createCustomRules kclient) /\
             UpdateFunc h = None /\
             DeleteFunc h = None) /\
  (forall obj w,
     deliver informer [addNotification obj] w = createCustomRules kclient obj w) /\
  (forall oldObj newObj w,
     deliver informer [updateNotification oldObj newObj] w = (Ret tt, w)) /\
  (forall oldObj w,
     deliver informer [deleteNotification oldObj] w = (Ret tt, w)).
Proof.
  cbn zeta. repeat split; try reflexivity.
  - eexists. repeat split; reflexivity.
  - intros obj w. cbn [deliver distribute notify OnAdd NewNamespaceController
      namespaceInformer AddEventHandler handlers NewSharedIndexInformer app AddFunc].
    change (Effects.bind
              (Effects.bind (createCustomRules kclient obj)
                 (fun _ => Effects.ret tt)) (fun _ => Effects.ret tt) w
            = createCustomRules kclient obj w).
    unfold Effects.bind at 1. rewrite bind_unit_ret.
    destruct (createCustomRules kclient obj w) as [[[]|msg] w']; reflexivity.
Qed.

Lemma deliver_add_cons (obj : iface) (rest : list notification) (w : World C) :
  let informer := namespaceInformer (NewNamespaceController kclient) in
  deliver informer (addNotification obj :: rest) w =
  Effects.bind (createCustomRules kclient obj) (fun _ => deliver informer rest) w.
Proof.
  cbn zeta. cbn [deliver]. unfold mbind, M_bind.
  change (handlers (namespaceInformer (NewNamespaceController kclient)))
    with [mkHandlerFuncs (Some (createCustomRules kclient)) None None].
  cbn [distribute notify OnAdd AddFunc]. unfold mbind, M_bind, mret, M_ret.
  unfold Effects.bind at 1. rewrite bind_unit_ret. reflexivity.
Qed.

(** Add notifications that carry Namespace objects are all handled: the
    delivery returns, having logged at least one line for each. *)
Lemma deliver_adds (nss : list Namespace_) (w : World C) :
  let informer := namespaceInformer (NewNamespaceController kclient) in
  let out := deliver informer
               (map (fun ns => addNotification (ptr_Namespace (Some ns))) nss) w in
  fst out = Ret tt /\
  length (logs (trace (snd out))) >= length (logs (trace w)) + length nss.
Proof.
  cbn zeta. revert w. induction nss as [|ns nss IH]; intros w.
  - cbn [map deliver length]. split; [reflexivity | cbn; lia].
  - cbn [map length]. rewrite deliver_add_cons. unfold Effects.bind.
    destruct (fst (Regexp.MatchString "kube-.*" (Name (ns_ObjectMeta ns)))) eqn:H.
    + rewrite (createCustomRules_skip kclient ns w H).
      match goal with |- context [deliver _ _ ?w'] => specialize (IH w') end.
      destruct IH as [IH1 IH2]. split; [exact IH1|].
      cbn [trace] in IH2. rewrite logs_app, length_app in IH2.
      match goal with |- ?L >= _ => set (total := L) in * end.
      cbn in IH2. cbn [snd trace]. lia.
    + rewrite (createCustomRules_provision kclient ns w H).
      match goal with |- context [deliver _ _ ?w'] => specialize (IH w') end.
      destruct IH as [IH1 IH2]. split; [exact IH1|].
      cbn [trace] in IH2. rewrite logs_app, length_app in IH2.
      match goal with |- ?L >= _ => set (total := L) in * end.
      cbn in IH2. cbn [snd trace]. lia.
Qed.

End Constructor.

(** ** Outcomes are logged and dropped *)

Section Outcomes.
Import K8s Effects Controller.

Context {C : Type}.

(** C6, as amended: for every namespace object and every outcome of the two
    calls the handler returns without a panic and hands nothing back; its
    log lines are the skip notice for a skipped namespace and otherwise
    one line per submission, which on success names the namespace and on
    failure is a fixed head followed by the error text (the namespace is
    not named on that line); and any further add notifications for
    namespaces are delivered and handled in turn, whatever the calls
    answer. *)
Theorem outcomes_logged_and_dropped (kclient : Clientset C) (ns : Namespace_) (c : C) :
  let n := Name (ns_ObjectMeta ns) in
  let limit := limit_body ("lr-auto-" +:+ n) n in
  let quota := quota_body ("rq-auto-" +:+ n) n in
  let lr := LimitRanges_Create kclient n limit c in
  let rq := ResourceQuotas_Create kclient n quota (snd lr) in
  let out := createCustomRules kclient (ptr_Namespace (Some ns)) (mkWorld c []) in
  let line1 := match snd (fst lr) with
               | Some e => "Failed to create limitRange: " +:+ e
               | None => "limitRange for Namespace: " +:+ n +:+ " created"
               end in
  let line2 := match snd (fst rq) with
               | Some e => "Failed to create ResourceQuotas: " +:+ e
               | None => "ResourceQuotas for Namespace: " +:+ n +:+ " created"
               end in
  fst out = Ret tt /\
  logs (trace (snd out)) =
    (if fst (Regexp.MatchString "kube-.*" n)
     then ["Skip admin namespace: " +:+ n]
     else [line1; line2]) /\
  (forall l, In l (logs (trace (snd out))) ->
     Contains l n = true \/
     exists e, (snd (fst lr) = Some e \/ snd (fst rq) = Some e) /\
               Contains l e = true) /\
  (forall (later : list Namespace_) (w : World C),
     let informer := namespaceInformer (NewNamespaceController kclient) in
     let out' := deliver informer
                   (map (fun ns' => addNotification (ptr_Namespace (Some ns'))) later)
                   w in
     fst out' = Ret tt /\
     length (logs (trace (snd out'))) >= length (logs (trace w)) + length later).
Proof.
  intros n limit quota lr rq out line1 line2.
  destruct (handler_log_lines kclient ns c) as (H1 & H2 & H3).
  split; [exact H1|]. split; [exact H2|]. split; [exact H3|].
  intros later w. apply deliver_adds.
Qed.

End Outcomes.

(** ** Concrete runs *)

Section Runs.
Import K8s Effects Controller.

(** C1, at the input where the code departs from it: the name
    [my-kube-ns] does not begin with [kube-], yet the unanchored pattern
    matches it, and the handler makes no creation call: it logs the skip
    notice and returns. *)
Theorem inner_kube_namespace_skipped :
  HasPrefix "my-kube-ns" "kube-" = false /\
  Regexp.MatchString "kube-.*" "my-kube-ns" = (true, None) /\
  forall (C : Type) (kclient : Clientset C) (c : C),
    createCustomRules kclient (ptr_Namespace (Some (Fake.namespace_named "my-kube-ns")))
                      (mkWorld c []) =
    (Ret tt, mkWorld c [LogLine "Skip admin namespace: my-kube-ns"]).
Proof.
  split; [reflexivity|]. split; [reflexivity|]. intros C kclient c.
  apply (createCustomRules_skip kclient (Fake.namespace_named "my-kube-ns")
                                (mkWorld c [])).
  reflexivity.
Qed.

(** The line logged for a failed creation call does not contain the name
    of the namespace: with a client whose calls fail, the two lines for
    [team-a] are the fixed heads followed by the error text. *)
Lemma failure_line_lacks_namespace :
  let out := createCustomRules Fake.unreachable
               (ptr_Namespace (Some (Fake.namespace_named "team-a")))
               (mkWorld tt []) in
  logs (trace (snd out)) =
    [ "Failed to create limitRange: connection refused";
      "Failed to create ResourceQuotas: connection refused" ] /\
  ~ (forall l, In l (logs (trace (snd out))) -> Contains l "team-a" = true).
Proof.
  split; [reflexivity|]. intros H.
  specialize (H "Failed to create limitRange: connection refused" (or_introl eq_refl)).
  discriminate H.
Qed.

End Runs.

(** ** The handler reads the name only *)

Section NameOnly.
Import K8s Effects Controller.

(** C10: two namespace objects of the same name are classified alike; run
    against the same client and world the handler does the same thing and
    leaves the same world; and the creation calls it makes, bodies
    included, are the same whatever client and cluster each run meets. *)
Theorem handler_reads_name_only (ns1 ns2 : Namespace_) :
  Name (ns_ObjectMeta ns1) = Name (ns_ObjectMeta ns2) ->
  fst (Regexp.MatchString "kube-.*" (Name (ns_ObjectMeta ns1))) =
    fst (Regexp.MatchString "kube-.*" (Name (ns_ObjectMeta ns2))) /\
  (forall (C : Type) (kclient : Clientset C) (w : World C),
     createCustomRules kclient (ptr_Namespace (Some ns1)) w =
     createCustomRules kclient (ptr_Namespace (Some ns2)) w) /\
  (forall (C1 C2 : Type) (k1 : Clientset C1) (k2 : Clientset C2) (c1 : C1) (c2 : C2),
     calls (trace (snd (createCustomRules k1 (ptr_Namespace (Some ns1)) (mkWorld c1 [])))) =
     calls (trace (snd (createCustomRules k2 (ptr_Namespace (Some ns2)) (mkWorld c2 []))))).
Proof.
  intros Hname. split; [now rewrite Hname|].
  split; [intros; now apply createCustomRules_name_only|].
  intros C1 C2 k1 k2 c1 c2.
  destruct (fst (Regexp.MatchString "kube-.*" (Name (ns_ObjectMeta ns1)))) eqn:H1.
  - assert (H2 := H1). rewrite Hname in H2.
    rewrite (createCustomRules_skip k1 ns1 _ H1), (createCustomRules_skip k2 ns2 _ H2).
    reflexivity.
  - assert (H2 := H1). rewrite Hname in H2.
    rewrite (createCustomRules_calls k1 ns1 _ H1), (createCustomRules_calls k2 ns2 _ H2).
    now rewrite Hname.
Qed.

End NameOnly.

(** ** The theorems at concrete inputs *)

Section Instances.
Import K8s Effects Controller.

Lemma skip_matching_namespace_kube_system :
  let ns := Fake.namespace_named "kube-system" in
  let w := mkWorld Fake.empty [] in
  let out := createCustomRules Fake.clientset (ptr_Namespace (Some ns)) w in
  fst (Regexp.MatchString "kube-.*" "kube-system") = true /\
  fst out = Ret tt /\
  cluster (snd out) = Fake.empty /\
  calls (trace (snd out)) = [] /\
  logs (trace (snd out)) = ["Skip admin namespace: kube-system"].
Proof.
  split; [reflexivity|].
  exact (skip_matching_namespace Fake.clientset (Fake.namespace_named "kube-system")
           (mkWorld Fake.empty []) eq_refl).
Defined.

Lemma limit_range_request_team_a :
  let ns := Fake.namespace_named "team-a" in
  fst (Regexp.MatchString "kube-.*" "team-a") = false /\
  exists body rest item q,
    trace (snd (createCustomRules Fake.clientset (ptr_Namespace (Some ns))
                                  (mkWorld Fake.empty []))) =
      CreateLimitRange "team-a" body :: rest /\
    (forall n' b, ~ In (CreateLimitRange n' b) rest) /\
    Kind (lr_TypeMeta body) = "LimitRange" /\
    Name (lr_ObjectMeta body) = "lr-auto-team-a" /\
    Namespace (lr_ObjectMeta body) = "team-a" /\
    Limits (lr_Spec body) = [item] /\
    Type_ item = LimitTypeContainer /\
    Default item = {[ "memory" := q ]} /\
    DefaultRequest item = {[ "memory" := q ]} /\
    Value q = 134217728%Z.
Proof.
  split; [reflexivity|].
  exact (limit_range_request Fake.clientset (Fake.namespace_named "team-a")
           (mkWorld Fake.empty []) eq_refl).
Defined.

Lemma resource_quota_request_team_a :
  let ns := Fake.namespace_named "team-a" in
  fst (Regexp.MatchString "kube-.*" "team-a") = false /\
  exists body before after q,
    trace (snd (createCustomRules Fake.clientset (ptr_Namespace (Some ns))
                                  (mkWorld Fake.empty []))) =
      before ++ CreateResourceQuota "team-a" body :: after /\
    (forall n' b, ~ In (CreateResourceQuota n' b) (before ++ after)) /\
    Kind (rq_TypeMeta body) = "ResourceQuota" /\
    Name (rq_ObjectMeta body) = "rq-auto-team-a" /\
    Namespace (rq_ObjectMeta body) = "team-a" /\
    Hard (rq_Spec body) !! "services.loadbalancers" = Some q /\
    Hard (rq_Spec body) !! "services.nodeports" = Some q /\
    dom (Hard (rq_Spec body)) = {[ "services.loadbalancers"; "services.nodeports" ]} /\
    q = NewQuantity 0 BinarySI /\
    amount q = 0%Z /\
    scale q = 0%Z.
Proof.
  split; [reflexivity|].
  exact (resource_quota_request Fake.clientset (Fake.namespace_named "team-a")
           (mkWorld Fake.empty []) eq_refl).
Defined.

Lemma creation_calls_independent_unreachable :
  let ns := Fake.namespace_named "team-a" in
  let limit := limit_body "lr-auto-team-a" "team-a" in
  let quota := quota_body "rq-auto-team-a" "team-a" in
  let t := trace (snd (createCustomRules Fake.unreachable (ptr_Namespace (Some ns))
                                         (mkWorld tt []))) in
  fst (Regexp.MatchString "kube-.*" "team-a") = false /\
  snd (fst (LimitRanges_Create Fake.unreachable "team-a" limit tt)) =
    Some "connection refused" /\
  calls t = [CreateLimitRange "team-a" limit; CreateResourceQuota "team-a" quota] /\
  exists l, t = [CreateLimitRange "team-a" limit;
                 LogLine "Failed to create limitRange: connection refused";
                 CreateResourceQuota "team-a" quota; LogLine l].
Proof.
  split; [reflexivity|]. split; [reflexivity|].
  destruct (creation_calls_independent Fake.unreachable (Fake.namespace_named "team-a")
              tt eq_refl) as (Hcalls & Hlr & _).
  split; [exact Hcalls|].
  exact (Hlr "connection refused" eq_refl).
Defined.

Lemma Run_blocks_until_stop_fifth_tick :
  let c := NewNamespaceController Fake.unreachable in
  let env := [false; false; false; false; true; false] in
  let g := informer_Run (namespaceInformer c) in
  let st := GoThread.exec env (GoThread.enter (Run c) 0) in
  (0 <= 0)%Z /\
  GoThread.panicked st = false /\
  (GoThread.returned st = true -> In true env) /\
  GoThread.started st = [g] /\
  GoThread.done_calls st = (if GoThread.returned st then 1 else 0) /\
  GoThread.wg st = (if GoThread.returned st then 0 else 1)%Z /\
  (In true env ->
   forall tail, 5 <= length tail ->
     GoThread.returned (GoThread.exec (env ++ tail) (GoThread.enter (Run c) 0)) = true).
Proof.
  split; [lia|].
  exact (Run_blocks_until_stop (NewNamespaceController Fake.unreachable) 0
           (Z.le_refl 0) [false; false; false; false; true; false]).
Defined.

Lemma handler_reads_name_only_team_a :
  let ns1 := Fake.namespace_named "team-a" in
  let ns2 := Fake.labelled "team-a" "payments" in
  Name (ns_ObjectMeta ns1) = Name (ns_ObjectMeta ns2) /\
  ns1 <> ns2 /\
  (forall (C : Type) (kclient : Clientset C) (w : World C),
     createCustomRules kclient (ptr_Namespace (Some ns1)) w =
     createCustomRules kclient (ptr_Namespace (Some ns2)) w) /\
  (forall (C1 C2 : Type) (k1 : Clientset C1) (k2 : Clientset C2) (c1 : C1) (c2 : C2),
     calls (trace (snd (createCustomRules k1 (ptr_Namespace (Some ns1)) (mkWorld c1 [])))) =
     calls (trace (snd (createCustomRules k2 (ptr_Namespace (Some ns2)) (mkWorld c2 []))))).
Proof.
  split; [reflexivity|]. split; [discriminate|].
  exact (proj2 (handler_reads_name_only (Fake.namespace_named "team-a")
                  (Fake.labelled "team-a" "payments") eq_refl)).
Defined.

End Instances.


(** * Further properties *)

(** ** The classification *)

Section Classification.
Import K8s Effects Controller.

Lemma bytes_inj (s t : string) : bytes s = bytes t -> s = t.
Proof.
  unfold bytes. intros H.
  rewrite <- (string_of_list_ascii_of_string s), <- (string_of_list_ascii_of_string t).
  now rewrite H.
Qed.

Lemma Contains_spec (s sub : string) :
  Contains s sub = true <-> exists pre post, s = pre +:+ sub +:+ post.
Proof.
  unfold Contains. rewrite find_sub_spec. unfold occurs_in. split.
  - intros (pre & post & H).
    exists (string_of_list_ascii pre), (string_of_list_ascii post).
    apply bytes_inj. rewrite !bytes_app. unfold bytes at 2 4.
    now rewrite !list_ascii_of_string_of_list_ascii.
  - intros (pre & post & ->). exists (bytes pre), (bytes post).
    now rewrite !bytes_app.
Qed.

(** X1: the test of line 74 never yields an error, and it reports a match
    for exactly the names that contain [kube-] somewhere: at the front, as
    in [kube-system], or further in. *)
Theorem admin_classification (n : string) :
  Regexp.MatchString "kube-.*" n = (Contains n "kube-", None) /\
  (fst (Regexp.MatchString "kube-.*" n) = true <->
   exists pre post, n = pre +:+ "kube-" +:+ post) /\
  fst (Regexp.MatchString "kube-.*" ("kube-" +:+ n)) = true.
Proof.
  rewrite !Pattern.MatchString_kube. cbn [fst].
  split; [reflexivity|]. split; [apply Contains_spec|].
  apply Contains_spec. now exists "", n.
Qed.

End Classification.

(** ** Sequences of notifications *)

Section Delivery.
Import K8s Effects Controller.

Context {C : Type}.
Variable kclient : Clientset C.

Let informer := namespaceInformer (NewNamespaceController kclient).

Lemma deliver_nil (w : World C) : deliver informer [] w = (Ret tt, w).
Proof. reflexivity. Qed.

Lemma deliver_update_cons (oldObj newObj : iface) (rest : list notification)
    (w : World C) :
  deliver informer (updateNotification oldObj newObj :: rest) w = deliver informer rest w.
Proof. reflexivity. Qed.

Lemma deliver_delete_cons (oldObj : iface) (rest : list notification) (w : World C) :
  deliver informer (deleteNotification oldObj :: rest) w = deliver informer rest w.
Proof. reflexivity. Qed.

Lemma deliver_app (ns1 ns2 : list notification) (w : World C) :
  deliver informer (ns1 ++ ns2) w =
  Effects.bind (deliver informer ns1) (fun _ => deliver informer ns2) w.
Proof.
  revert w. induction ns1 as [|n ns1 IH]; intros w; [reflexivity|].
  cbn [app]. destruct n as [obj|oldObj newObj|oldObj].
  - subst informer. rewrite deliver_add_cons. unfold Effects.bind.
    rewrite deliver_add_cons. unfold Effects.bind.
    destruct (createCustomRules kclient obj w) as [[[]|msg] w']; [|reflexivity].
    rewrite IH. reflexivity.
  - rewrite deliver_update_cons. unfold Effects.bind. rewrite deliver_update_cons.
    apply IH.
  - rewrite deliver_delete_cons. unfold Effects.bind. rewrite deliver_delete_cons.
    apply IH.
Qed.

Lemma handler_calls (ns : Namespace_) (w : World C) :
  calls (trace (snd (createCustomRules kclient (ptr_Namespace (Some ns)) w))) =
  calls (trace w) ++ requests_for ns.
Proof.
  unfold requests_for, skipped.
  destruct (fst (Regexp.MatchString "kube-.*" (Name (ns_ObjectMeta ns)))) eqn:H.
  - rewrite (createCustomRules_skip kclient ns w H). cbn [snd trace].
    rewrite calls_app. reflexivity.
  - apply (createCustomRules_calls kclient ns w H).
Qed.

Lemma handler_returns (ns : Namespace_) (w : World C) :
  fst (createCustomRules kclient (ptr_Namespace (Some ns)) w) = Ret tt.
Proof.
  destruct (fst (Regexp.MatchString "kube-.*" (Name (ns_ObjectMeta ns)))) eqn:H.
  - now rewrite (createCustomRules_skip kclient ns w H).
  - now rewrite (createCustomRules_provision kclient ns w H).
Qed.

Lemma handler_logs_count (ns : Namespace_) (w : World C) :
  length (logs (trace (snd (createCustomRules kclient (ptr_Namespace (Some ns)) w)))) =
  length (logs (trace w)) + (if skipped ns then 1 else 2).
Proof.
  unfold skipped.
  destruct (fst (Regexp.MatchString "kube-.*" (Name (ns_ObjectMeta ns)))) eqn:H.
  - rewrite (createCustomRules_skip kclient ns w H). cbn [snd trace].
    now rewrite logs_app, length_app.
  - rewrite (createCustomRules_provision kclient ns w H). cbn [snd trace].
    now rewrite logs_app, length_app.
Qed.

(** X2: when add notifications for a list of namespace objects are
    delivered, the creation calls made are, namespace by namespace in
    delivery order, the LimitRange call and the ResourceQuota call of each
    namespace that is not skipped: no call is dropped, repeated or
    reordered, whatever the client answers, and a namespace delivered twice
    gets its two calls twice. *)
Theorem deliver_calls_in_order (nss : list Namespace_) (w : World C) :
  calls (trace (snd (deliver (namespaceInformer (NewNamespaceController kclient))
                             (adds nss) w))) =
  calls (trace w) ++ flat_map requests_for nss.
Proof.
  fold informer. revert w. induction nss as [|ns nss IH]; intros w.
  - cbn. now rewrite app_nil_r.
  - cbn [adds map flat_map]. fold (adds nss). subst informer.
    rewrite deliver_add_cons. unfold Effects.bind.
    pose proof (handler_returns ns w) as Hret.
    pose proof (handler_calls ns w) as Hcalls.
    destruct (createCustomRules kclient (ptr_Namespace (Some ns)) w) as [r w'].
    cbn [fst snd] in Hret, Hcalls. subst r.
    rewrite IH, Hcalls. now rewrite app_assoc.
Qed.

(** X3: one log line is written for every skipped namespace and two for
    every other one, over any sequence of add notifications for namespace
    objects and whatever the calls return. *)
Theorem deliver_log_count (nss : list Namespace_) (w : World C) :
  length (logs (trace (snd (deliver (namespaceInformer (NewNamespaceController kclient))
                                    (adds nss) w)))) =
  length (logs (trace w)) + length (List.filter skipped nss)
  + 2 * length (List.filter (fun ns => negb (skipped ns)) nss).
Proof.
  fold informer. revert w. induction nss as [|ns nss IH]; intros w.
  - cbn. lia.
  - cbn [adds map]. fold (adds nss). subst informer.
    rewrite deliver_add_cons. unfold Effects.bind.
    pose proof (handler_returns ns w) as Hret.
    pose proof (handler_logs_count ns w) as Hlogs.
    destruct (createCustomRules kclient (ptr_Namespace (Some ns)) w) as [r w'].
    cbn [fst snd] in Hret, Hlogs. subst r.
    rewrite IH, Hlogs. cbn [List.filter].
    destruct (skipped ns); cbn [negb length]; lia.
Qed.

(** X4: update and delete notifications have no effect wherever they occur
    in a sequence: delivering a sequence gives the same result, the same
    cluster and the same trace as delivering its add notifications alone. *)
Theorem deliver_ignores_updates_and_deletes (ns : list notification) (w : World C) :
  deliver (namespaceInformer (NewNamespaceController kclient)) ns w =
  deliver (namespaceInformer (NewNamespaceController kclient)) (List.filter is_add ns) w.
Proof.
  fold informer. revert w. induction ns as [|n ns IH]; intros w; [reflexivity|].
  destruct n as [obj|oldObj newObj|oldObj]; cbn [List.filter is_add].
  - subst informer. rewrite !deliver_add_cons. unfold Effects.bind.
    destruct (createCustomRules kclient obj w) as [[[]|msg] w']; [apply IH | reflexivity].
  - rewrite deliver_update_cons. apply IH.
  - rewrite deliver_delete_cons. apply IH.
Qed.

(** X5: an add notification whose payload is not a Namespace object ends
    the delivery with a panic: the notifications before it have been
    handled, the ones after it are not, and the world is as the earlier
    ones left it. *)
Theorem deliver_stops_at_panic (good : list Namespace_) (obj : iface)
    (rest : list notification) (w : World C) :
  is_Namespace obj = false ->
  exists msg,
    deliver (namespaceInformer (NewNamespaceController kclient))
            (adds good ++ addNotification obj :: rest) w =
    (Panic msg,
     snd (deliver (namespaceInformer (NewNamespaceController kclient)) (adds good) w)).
Proof.
  intros Hobj. fold informer. rewrite deliver_app. unfold Effects.bind at 1.
  pose proof (deliver_adds kclient good w) as [Hret _]. fold informer in Hret.
  fold (adds good) in Hret.
  destruct (deliver informer (adds good) w) as [r w']. cbn [fst snd] in *. subst r.
  subst informer. rewrite deliver_add_cons. unfold Effects.bind.
  destruct obj as [|[ns|]|ty]; try discriminate Hobj; eexists; reflexivity.
Qed.

End Delivery.

(** ** [Run], once it has returned *)

Section RunReturn.
Import K8s Effects Controller.

Context {C : Type}.
Variable c : NamespaceController C.
Variable counter : Z.
Hypothesis counter_nonneg : (0 <= counter)%Z.

Lemma position_le_length (env : list bool) : fst (position env) <= length env.
Proof.
  induction env as [|f env IH] using rev_ind; [cbn; lia|].
  rewrite position_snoc, length_app. cbn [length].
  destruct (position env) as [i r]. cbn [fst] in IH. unfold advance. cbn [fst snd].
  destruct i as [|[|[|[|[|i]]]]]; cbn [fst]; try lia.
  destruct (r || f); cbn [fst]; lia.
Qed.

Lemma advance_returned (tail : list bool) :
  fold_left advance tail (5, true) = (5, true).
Proof. induction tail as [|f tail IH]; [reflexivity | exact IH]. Qed.

(** X6: [Run] cannot have returned before its fifth step (the [defer], the
    [Add], the [go] statement, the receive and the deferred [Done]), and
    once it has returned nothing further happens to the state it shares:
    the WaitGroup is not touched again and no goroutine is started, however
    many more ticks pass and whether or not the signal fires again. *)
Theorem Run_returns_once (env tail : list bool) :
  GoThread.returned (GoThread.exec env (GoThread.enter (Run c) counter)) = true ->
  5 <= length env /\
  GoThread.exec (env ++ tail) (GoThread.enter (Run c) counter) =
  GoThread.exec env (GoThread.enter (Run c) counter).
Proof.
  rewrite !(exec_Run c counter counter_nonneg).
  pose proof (position_le_length env) as Hlen.
  destruct (position_inv env) as (H5 & _ & H4 & _).
  assert (Happ : position (env ++ tail) = fold_left advance tail (position env))
    by (unfold position; apply fold_left_app).
  rewrite Happ. clear Happ.
  destruct (position env) as [i r]. cbn [fst snd] in *.
  intros Hret.
  destruct i as [|[|[|[|[|[|i]]]]]]; try discriminate Hret; [|lia].
  rewrite (H4 ltac:(lia)). split; [lia|].
  now rewrite advance_returned.
Qed.

End RunReturn.

(** ** The further theorems at concrete inputs *)

Section FurtherInstances.
Import K8s Effects Controller.

Lemma deliver_stops_at_panic_nil_pointer :
  let informer := namespaceInformer (NewNamespaceController Fake.clientset) in
  let good := [Fake.namespace_named "team-a"] in
  let rest := [addNotification (ptr_Namespace (Some (Fake.namespace_named "team-b")))] in
  let w := mkWorld Fake.empty [] in
  is_Namespace (ptr_Namespace None) = false /\
  exists msg,
    deliver informer (adds good ++ addNotification (ptr_Namespace None) :: rest) w =
    (Panic msg, snd (deliver informer (adds good) w)).
Proof.
  split; [reflexivity|].
  exact (deliver_stops_at_panic Fake.clientset [Fake.namespace_named "team-a"]
           (ptr_Namespace None)
           [addNotification (ptr_Namespace (Some (Fake.namespace_named "team-b")))]
           (mkWorld Fake.empty []) eq_refl).
Defined.

Lemma Run_returns_once_sixth_tick :
  let c := NewNamespaceController Fake.unreachable in
  let env := [false; false; false; false; true; false] in
  let tail := [true; false; false] in
  (0 <= 0)%Z /\
  GoThread.returned (GoThread.exec env (GoThread.enter (Run c) 0)) = true /\
  5 <= length env /\
  GoThread.exec (env ++ tail) (GoThread.enter (Run c) 0) =
  GoThread.exec env (GoThread.enter (Run c) 0).
Proof.
  split; [lia|]. split; [reflexivity|].
  exact (Run_returns_once (NewNamespaceController Fake.unreachable) 0 (Z.le_refl 0)
           [false; false; false; false; true; false] [true; false; false] eq_refl).
Defined.

End FurtherInstances.
